(** * Argus firmware (argus.ino): command latch, telemetry reply and motor profiles

    A shallow embedding of the Arduino Uno sketch [Argus/argus/argus.ino].
    The sketch has two execution contexts sharing three globals
    ([command], [sensorData] and the output pins):

    - [loop], the cooperative poll loop, and
    - [ISR(SPI_STC_vect)], the SPI interrupt handler.

    The AVR's machine integers are modelled as [Z] with the wrap-around of
    each declared type written out; the 32-bit [double] of the AVR toolchain
    is modelled with the binary32 instance of [SpecFloat]. *)

From Stdlib Require Import ZArith List Bool Lia.
From Stdlib Require Import Floats.SpecFloat.
Import ListNotations.

Local Open Scope Z_scope.

(** ** Machine integers *)

Module MachineInt.

(** [byte]: unsigned 8 bits. *)
Definition wrap8 (z : Z) : Z := z mod 256.

(** Two's complement reading of the low [w] bits of [z]. *)
Definition wrap_signed (w : Z) (z : Z) : Z :=
  let m := z mod 2 ^ w in
  if m <? 2 ^ (w - 1) then m else m - 2 ^ w.

(** [short] and [int] are both 16 bits wide on the AVR. *)
Definition wrap_short (z : Z) : Z := wrap_signed 16 z.
Definition wrap_int (z : Z) : Z := wrap_signed 16 z.

(** [long]: 32 bits. *)
Definition wrap_long (z : Z) : Z := wrap_signed 32 z.

Definition is_byte (z : Z) : Prop := 0 <= z < 256.
Definition is_short (z : Z) : Prop := -32768 <= z < 32768.

End MachineInt.
Import MachineInt.

(** ** Pin assignment and protocol constants (the sketch's [#define]s) *)

Definition MOTOR_ENA : Z := 5.
Definition MOTOR_IN1 : Z := 4.
Definition MOTOR_IN2 : Z := 3.
Definition MOTOR_ENB : Z := 6.
Definition MOTOR_IN3 : Z := 7.
Definition MOTOR_IN4 : Z := 8.
Definition TRIG_PIN : Z := 9.
Definition ECHO_PIN : Z := 10.

Definition CMD_STOP : Z := 0x00.
Definition CMD_FORWARD : Z := 0x01.
Definition CMD_REVERSE : Z := 0x02.
Definition CMD_TURN_LEFT : Z := 0x03.
Definition CMD_TURN_RIGHT : Z := 0x04.
Definition CMD_GET_SENSOR_DATA : Z := 0x10.

Definition HIGH : bool := true.
Definition LOW : bool := false.

(** ** Output pins *)

(** The level of the five digital output lines and the PWM duty of the two
    enable lines.  ([MISO] is driven by the SPI hardware, not by the sketch.) *)
Record Pins := mkPins {
  in1 : bool;   (* MOTOR_IN1, left motor direction *)
  in2 : bool;   (* MOTOR_IN2, left motor direction *)
  in3 : bool;   (* MOTOR_IN3, right motor direction *)
  in4 : bool;   (* MOTOR_IN4, right motor direction *)
  ena : Z;      (* MOTOR_ENA, left motor duty, 0..255 *)
  enb : Z;      (* MOTOR_ENB, right motor duty, 0..255 *)
  trig : bool   (* TRIG_PIN *)
}.

(** [digitalWrite(pin, level)]: a pin the sketch never drives is left alone. *)
Definition digitalWrite (pin : Z) (level : bool) (p : Pins) : Pins :=
  if pin =? MOTOR_IN1 then
    mkPins level (in2 p) (in3 p) (in4 p) (ena p) (enb p) (trig p)
  else if pin =? MOTOR_IN2 then
    mkPins (in1 p) level (in3 p) (in4 p) (ena p) (enb p) (trig p)
  else if pin =? MOTOR_IN3 then
    mkPins (in1 p) (in2 p) level (in4 p) (ena p) (enb p) (trig p)
  else if pin =? MOTOR_IN4 then
    mkPins (in1 p) (in2 p) (in3 p) level (ena p) (enb p) (trig p)
  else if pin =? TRIG_PIN then
    mkPins (in1 p) (in2 p) (in3 p) (in4 p) (ena p) (enb p) level
  else p.

(** [analogWrite(pin, duty)] on the two PWM enable lines. *)
Definition analogWrite (pin : Z) (duty : Z) (p : Pins) : Pins :=
  if pin =? MOTOR_ENA then
    mkPins (in1 p) (in2 p) (in3 p) (in4 p) duty (enb p) (trig p)
  else if pin =? MOTOR_ENB then
    mkPins (in1 p) (in2 p) (in3 p) (in4 p) (ena p) duty (trig p)
  else p.

(** Statements of a [void] helper run in sequence on the pin state. *)
Definition seq (f g : Pins -> Pins) : Pins -> Pins := fun p => g (f p).
Notation "f ;; g" := (seq f g) (at level 61, left associativity).

(** ** Motor helper functions *)

Definition goForward : Pins -> Pins :=
  digitalWrite MOTOR_IN1 HIGH ;;
  digitalWrite MOTOR_IN2 LOW ;;
  digitalWrite MOTOR_IN3 HIGH ;;
  digitalWrite MOTOR_IN4 LOW ;;
  analogWrite MOTOR_ENA 200 ;;
  analogWrite MOTOR_ENB 200.

Definition goReverse : Pins -> Pins :=
  digitalWrite MOTOR_IN1 LOW ;;
  digitalWrite MOTOR_IN2 HIGH ;;
  digitalWrite MOTOR_IN3 LOW ;;
  digitalWrite MOTOR_IN4 HIGH ;;
  analogWrite MOTOR_ENA 150 ;;
  analogWrite MOTOR_ENB 150.

Definition turnLeft : Pins -> Pins :=
  digitalWrite MOTOR_IN1 LOW ;;
  digitalWrite MOTOR_IN2 HIGH ;;
  digitalWrite MOTOR_IN3 HIGH ;;
  digitalWrite MOTOR_IN4 LOW ;;
  analogWrite MOTOR_ENA 180 ;;
  analogWrite MOTOR_ENB 180.

Definition turnRight : Pins -> Pins :=
  digitalWrite MOTOR_IN1 HIGH ;;
  digitalWrite MOTOR_IN2 LOW ;;
  digitalWrite MOTOR_IN3 LOW ;;
  digitalWrite MOTOR_IN4 HIGH ;;
  analogWrite MOTOR_ENA 180 ;;
  analogWrite MOTOR_ENB 180.

Definition stopMotors : Pins -> Pins :=
  digitalWrite MOTOR_IN1 LOW ;;
  digitalWrite MOTOR_IN2 LOW ;;
  digitalWrite MOTOR_IN3 LOW ;;
  digitalWrite MOTOR_IN4 LOW ;;
  analogWrite MOTOR_ENA 0 ;;
  analogWrite MOTOR_ENB 0.

(** The [switch] of [executeMotorCommand]: the first matching [case] label
    runs, and a value with no label falls out of the [switch].  The labels
    are listed in the order of the source. *)
Definition executeMotorCommand (cmd : Z) : Pins -> Pins :=
  if cmd =? CMD_FORWARD then goForward
  else if cmd =? CMD_REVERSE then goReverse
  else if cmd =? CMD_TURN_LEFT then turnLeft
  else if cmd =? CMD_TURN_RIGHT then turnRight
  else if cmd =? CMD_STOP then stopMotors
  else fun p => p.

(** ** Reading the pins as a motor profile *)

Inductive Direction := Forward | Reverse | Neutral | Brake.

(** An L298N channel: IN-a high / IN-b low drives forward (the sketch's
    comments in [turnLeft] and [turnRight]), the opposite pair drives in
    reverse, both low is the neutral state. *)
Definition direction (a b : bool) : Direction :=
  match a, b with
  | true, false => Forward
  | false, true => Reverse
  | false, false => Neutral
  | true, true => Brake
  end.

Definition left_direction (p : Pins) : Direction := direction (in1 p) (in2 p).
Definition right_direction (p : Pins) : Direction := direction (in3 p) (in4 p).
Definition left_duty (p : Pins) : Z := ena p.
Definition right_duty (p : Pins) : Z := enb p.

Definition opposite (d e : Direction) : bool :=
  match d, e with
  | Forward, Reverse | Reverse, Forward => true
  | _, _ => false
  end.

(** The five codes of the protocol table. *)
Definition valid_command (c : Z) : Prop :=
  c = CMD_STOP \/ c = CMD_FORWARD \/ c = CMD_REVERSE \/
  c = CMD_TURN_LEFT \/ c = CMD_TURN_RIGHT.

Definition valid_commandb (c : Z) : bool :=
  (c =? CMD_STOP) || (c =? CMD_FORWARD) || (c =? CMD_REVERSE) ||
  (c =? CMD_TURN_LEFT) || (c =? CMD_TURN_RIGHT).

(** ** Sensor helper functions *)

Module Float32.

(** On the AVR toolchain [double] is the 32-bit IEEE single format:
    24 bits of precision, infinities at exponent 128. *)
Definition prec : Z := 24.
Definition emax : Z := 128.

(** Conversion of an integer, rounding to nearest. *)
Definition of_Z (z : Z) : spec_float := binary_normalize prec emax z 0 false.

Definition mul : spec_float -> spec_float -> spec_float := SFmul prec emax.
Definition div : spec_float -> spec_float -> spec_float := SFdiv prec emax.

(** The literal [0.0343]: the float nearest to 343/10000, which the
    correctly rounded quotient of the two exact integers yields. *)
Definition lit_0_0343 : spec_float := div (of_Z 343) (of_Z 10000).
Definition lit_2_0 : spec_float := of_Z 2.

(** Conversion to an integer type discards the fractional part. *)
Definition truncate (f : spec_float) : Z :=
  match f with
  | S754_finite s m e =>
      let mag := if 0 <=? e then Zpos m * 2 ^ e else Zpos m / 2 ^ (- e) in
      if s then - mag else mag
  | _ => 0
  end.

End Float32.

(** [readUltrasonic]: the trigger pulse on [TRIG_PIN], then the echo time
    converted to centimetres.  [echo] is what [pulseIn(ECHO_PIN, HIGH, 25000)]
    returns: the pulse length in microseconds, or 0 when no pulse completed
    within the 25 ms timeout. *)
Definition readUltrasonic (echo : Z) (p : Pins) : Pins * Z :=
  let p := digitalWrite TRIG_PIN LOW p in
  let p := digitalWrite TRIG_PIN HIGH p in
  let p := digitalWrite TRIG_PIN LOW p in
  let duration := wrap_long echo in
  (p, wrap_short
        (Float32.truncate
           (Float32.div
              (Float32.mul (Float32.of_Z duration) Float32.lit_0_0343)
              Float32.lit_2_0))).

(** Modelled from the spec: the Arduino core's [map], which is not part of
    the sketch.  A linear re-mapping of [x] from [in_min..in_max] onto
    [out_min..out_max], computed in [long] with C's truncating division. *)
Definition map (x in_min in_max out_min out_max : Z) : Z :=
  wrap_long
    (Z.quot (wrap_long (wrap_long (x - in_min) * wrap_long (out_max - out_min)))
            (wrap_long (in_max - in_min))
     + out_min).

(** Modelled from the spec: the Arduino core's [constrain], which is not
    part of the sketch.  It clamps [amt] to [low..high]. *)
Definition constrain (amt low high : Z) : Z :=
  if amt <? low then low else if amt >? high then high else amt.

(** [readBattery]; [adc] is what [analogRead(BATT_PIN)] returns. *)
Definition readBattery (adc : Z) : Z :=
  let sensorValue := wrap_int adc in
  let batteryPercent := map sensorValue 600 850 0 100 in
  wrap8 (constrain batteryPercent 0 100).

(** ** Shared state *)

Record SensorData := mkSensorData {
  distance : Z;        (* short *)
  battery_level : Z    (* byte *)
}.

Record Machine := mkMachine {
  command : Z;               (* volatile byte command *)
  sensorData : SensorData;   (* volatile SensorData sensorData *)
  pins : Pins;
  SPDR : Z;                  (* SPI data register, 8 bits *)
  SPCR : Z                   (* SPI control register, 8 bits *)
}.

Definition set_command (c : Z) (m : Machine) : Machine :=
  mkMachine c (sensorData m) (pins m) (SPDR m) (SPCR m).
Definition set_distance (d : Z) (m : Machine) : Machine :=
  mkMachine (command m) (mkSensorData d (battery_level (sensorData m)))
            (pins m) (SPDR m) (SPCR m).
Definition set_battery_level (b : Z) (m : Machine) : Machine :=
  mkMachine (command m) (mkSensorData (distance (sensorData m)) b)
            (pins m) (SPDR m) (SPCR m).
Definition set_pins (p : Pins) (m : Machine) : Machine :=
  mkMachine (command m) (sensorData m) p (SPDR m) (SPCR m).
Definition set_SPDR (v : Z) (m : Machine) : Machine :=
  mkMachine (command m) (sensorData m) (pins m) v (SPCR m).
Definition set_SPCR (v : Z) (m : Machine) : Machine :=
  mkMachine (command m) (sensorData m) (pins m) (SPDR m) v.

(** Bit positions of the SPI control register (AVR device header). *)
Definition SPE : Z := 6.
Definition SPIE : Z := 7.
Definition _BV (bit : Z) : Z := Z.shiftl 1 bit.

(** The globals as the C start-up code leaves them: zero-initialised, all
    lines low. *)
Definition power_on : Machine :=
  mkMachine 0 (mkSensorData 0 0) (mkPins LOW LOW LOW LOW 0 0 LOW) 0 0.

(** [setup].  The [pinMode] calls only select the data direction of the
    pins and are not part of the modelled state. *)
Definition setup (m : Machine) : Machine :=
  let m := set_pins (stopMotors (pins m)) m in
  let m := set_SPCR (Z.lor (SPCR m) (_BV SPE)) m in
  let m := set_SPCR (Z.lor (SPCR m) (_BV SPIE)) m in
  let m := set_distance 0 m in
  let m := set_battery_level 0 m in
  m.

(** ** The SPI interrupt handler *)

(** [while (!(SPSR & _BV(SPIF)));] : the handler spins until the hardware
    raises the transfer-complete flag.  [polls] is the number of times the
    flag is found clear, which the bus master determines by clocking the
    next exchange; the spin changes nothing in the sketch's state. *)
Fixpoint wait_SPIF (polls : nat) (m : Machine) : Machine :=
  match polls with
  | O => m
  | S k => wait_SPIF k m
  end.

(** A write to [SPDR] stages one response byte; the handler's result
    carries the bytes staged so far, in order. *)
Definition stage (v : Z) (st : Machine * list Z) : Machine * list Z :=
  (set_SPDR (wrap8 v) (fst st), snd st ++ [wrap8 v]).

(** [ISR(SPI_STC_vect)].  The received byte is in [SPDR] on entry.  The
    handler runs with interrupts disabled, so nothing interleaves with it. *)
Definition ISR_SPI_STC (polls1 polls2 : nat) (m : Machine) : Machine * list Z :=
  let receivedByte := SPDR m in
  if receivedByte =? CMD_GET_SENSOR_DATA then
    let st := stage (Z.land (Z.shiftr (distance (sensorData m)) 8) 0xFF) (m, []) in
    let st := (wait_SPIF polls1 (fst st), snd st) in
    let st := stage (Z.land (distance (sensorData (fst st))) 0xFF) st in
    let st := (wait_SPIF polls2 (fst st), snd st) in
    let st := stage (battery_level (sensorData (fst st))) st in
    st
  else
    let m := set_command receivedByte m in
    stage 0xFF (m, []).

(** One bus exchange as the peripheral sees it: the SPI hardware leaves the
    byte clocked in by the controller in [SPDR] and raises the interrupt. *)
Definition bus_exchange (rx : Z) (polls1 polls2 : nat) (m : Machine)
  : Machine * list Z :=
  ISR_SPI_STC polls1 polls2 (set_SPDR (wrap8 rx) m).

(** The controller's reading of the first two telemetry bytes. *)
Definition be_int16 (hi lo : Z) : Z := wrap_short (hi * 256 + lo).

(** ** The poll loop *)

(** [loop], run without interruption.  [echo] and [adc] are the hardware
    readings of this iteration. *)
Definition loop (echo adc : Z) (m : Machine) : Machine :=
  let '(p, d) := readUltrasonic echo (pins m) in
  let m := set_distance d (set_pins p m) in
  let m := set_battery_level (readBattery adc) m in
  let m := set_pins (executeMotorCommand (command m) (pins m)) m in
  let m := set_command 0 m in
  m.

(** *** The loop as interruptible statements

    The interrupt can fire between any two statements of [loop].  Each
    statement touches the shared byte [command] at most once (a single
    8-bit load or store on the AVR), so the five statements are the atomic
    steps of the loop with respect to the latch.  The handler neither
    reads nor drives a pin, so the pin writes inside one statement are
    not separated: the states of this model are those between two
    statements, not those part-way through a helper. *)
Inductive LoopPc :=
| AtReadUltrasonic   (* sensorData.distance = readUltrasonic();   *)
| AtReadBattery      (* sensorData.battery_level = readBattery(); *)
| AtExecute          (* executeMotorCommand(command);             *)
| AtReset            (* command = 0;                              *)
| AtDelay.           (* delay(100);                               *)

Definition loop_statement (echo adc : Z) (pc : LoopPc) (m : Machine)
  : LoopPc * Machine :=
  match pc with
  | AtReadUltrasonic =>
      let '(p, d) := readUltrasonic echo (pins m) in
      (AtReadBattery, set_distance d (set_pins p m))
  | AtReadBattery =>
      (AtExecute, set_battery_level (readBattery adc) m)
  | AtExecute =>
      (AtReset, set_pins (executeMotorCommand (command m) (pins m)) m)
  | AtReset =>
      (AtDelay, set_command 0 m)
  | AtDelay =>
      (AtReadUltrasonic, m)
  end.

(** The node: the shared machine state, the loop's position and the number
    of completed loop iterations. *)
Record System := mkSystem {
  machine : Machine;
  pc : LoopPc;
  iteration : nat
}.

(** What can happen next: the controller clocks a byte in (the interrupt
    runs to completion), or the loop runs its next statement. *)
Inductive event :=
| Interrupt (rx : Z) (polls1 polls2 : nat)
| Advance (echo adc : Z).

Definition step (s : System) (e : event) : System :=
  match e with
  | Interrupt rx polls1 polls2 =>
      mkSystem (fst (bus_exchange rx polls1 polls2 (machine s)))
               (pc s) (iteration s)
  | Advance echo adc =>
      let '(pc', m') := loop_statement echo adc (pc s) (machine s) in
      mkSystem m' pc'
               (match pc s with AtDelay => S (iteration s) | _ => iteration s end)
  end.

(** The state in which [loop] is first entered. *)
Definition boot : System := mkSystem (setup power_on) AtReadUltrasonic 0.

Definition run_from (s : System) (sched : list event) : System :=
  fold_left step sched s.

Definition run (sched : list event) : System := run_from boot sched.

(** The response bytes of every exchange of a schedule, in order. *)
Fixpoint responses (s : System) (sched : list event) : list (list Z) :=
  match sched with
  | [] => []
  | Interrupt rx polls1 polls2 as e :: rest =>
      snd (bus_exchange rx polls1 polls2 (machine s)) :: responses (step s e) rest
  | e :: rest => responses (step s e) rest
  end.

(** Does the byte clocked in write the latch? *)
Definition is_command_byte (rx : Z) : bool :=
  negb (wrap8 rx =? CMD_GET_SENSOR_DATA).

(** The last latch-writing byte of a schedule, if any. *)
Definition last_command_byte (sched : list event) : option Z :=
  fold_left
    (fun acc e =>
       match e with
       | Interrupt rx _ _ => if is_command_byte rx then Some (wrap8 rx) else acc
       | Advance _ _ => acc
       end)
    sched None.

(** ** Conditions on schedules *)
Module Trace.

(** Number of loop statements a schedule runs. *)
Definition advances (sched : list event) : nat :=
  length (filter (fun e => match e with Advance _ _ => true | _ => false end)
                 sched).

(** No interrupt of the schedule writes the latch. *)
Definition no_command_bytes (sched : list event) : Prop :=
  Forall (fun e => match e with
                   | Interrupt rx _ _ => is_command_byte rx = false
                   | Advance _ _ => True
                   end) sched.


End Trace.

(** ** Concrete scenarios used below *)

(** One idle iteration's worth of loop statements. *)
Definition one_iteration : list event := repeat (Advance 1000 725) 5.

(** FORWARD arrives after the executor call of iteration 0 and before the
    reset; the loop then finishes iteration 0 and runs iteration 1. *)
Definition reset_window_schedule : list event :=
  repeat (Advance 1000 725) 3
    ++ [Interrupt CMD_FORWARD 0 0]
    ++ repeat (Advance 1000 725) 2 ++ one_iteration.

(** FORWARD arrives, the loop executes it (three statements), ... *)
Definition forward_schedule : list event :=
  Interrupt CMD_FORWARD 0 0 :: repeat (Advance 1000 725) 3.

(** ... and then runs on to the executor call of the next iteration with
    no further bus traffic. *)
Definition forward_then_idle_schedule : list event :=
  forward_schedule ++ one_iteration.

(** Four statements into iteration 0 the loop is in its [delay]; TURN_LEFT
    arrives there, then a telemetry request, and the loop runs on to the
    executor call of iteration 1. *)
Definition before_latch : list event := repeat (Advance 1000 725) 4.
Definition until_executed : list event :=
  Interrupt CMD_GET_SENSOR_DATA 1 1 :: repeat (Advance 1000 725) 4.
Definition delay_window_schedule : list event :=
  before_latch ++ Interrupt CMD_TURN_LEFT 0 0 :: until_executed ++ [].

(** A byte outside the protocol table arrives. *)
Definition unlisted_byte_schedule : list event := [Interrupt 0x07 0 0].

(** The pins with both motors stopped, as [setup] leaves them. *)
Definition stopped : Pins := mkPins LOW LOW LOW LOW 0 0 LOW.

(** The straight-line reading of "lower duty than straight-line motion". *)
Definition turn_duty_below_straight (p : Pins) : Prop :=
  left_duty (turnLeft p) < left_duty (goForward p) /\
  left_duty (turnLeft p) < left_duty (goReverse p) /\
  left_duty (turnRight p) < left_duty (goForward p) /\
  left_duty (turnRight p) < left_duty (goReverse p).

(** The latch invariant as the data model words it. *)
Definition latch_noop_or_valid (s : System) : Prop :=
  command (machine s) = 0 \/ valid_command (command (machine s)).

(** ** Auxiliary notions for the further properties *)

(** The distance in centimetres computed in exact integer arithmetic:
    343 m/s is 343/10000 cm per microsecond, halved for the round trip. *)
Definition exact_centimetres (echo : Z) : Z := echo * 343 / 20000.

(** Does [readUltrasonic] return [exact_centimetres] for each of the [n]
    echo times from [lo] upwards? *)
Fixpoint ultrasonic_agrees (lo : Z) (n : nat) : bool :=
  match n with
  | O => true
  | S k =>
      (snd (readUltrasonic lo stopped) =? exact_centimetres lo)
      && ultrasonic_agrees (lo + 1) k
  end.

(** A schedule with its telemetry requests removed. *)
Definition without_telemetry (sched : list event) : list event :=
  filter (fun e => match e with
                   | Interrupt rx _ _ => is_command_byte rx
                   | Advance _ _ => true
                   end) sched.

(** Everything of the node except the SPI data register: what the loop
    reads and drives, and where the loop stands. *)
Definition loop_view (s : System)
  : Z * SensorData * Pins * Z * LoopPc * nat :=
  (command (machine s), sensorData (machine s), pins (machine s),
   SPCR (machine s), pc s, iteration s).

(** The five pin states the motor helpers produce with the trigger low. *)
Definition profiles : list Pins :=
  [stopped; goForward stopped; goReverse stopped;
   turnLeft stopped; turnRight stopped].

(** Loop statements still to run, absent further commands, until the
    executor has been called on a latch that the reset has cleared. *)
Definition statements_until_stopped (s : System) : nat :=
  let cleared := command (machine s) =? 0 in
  match pc s with
  | AtReset => 5
  | AtExecute => if cleared then 1 else 6
  | AtReadBattery => if cleared then 2 else 7
  | AtReadUltrasonic => if cleared then 3 else 8
  | AtDelay => if cleared then 4 else 9
  end.

(** The motors are off and will stay off unless a command arrives. *)
Definition at_rest (s : System) : Prop :=
  stopMotors (pins (machine s)) = pins (machine s) /\
  (command (machine s) = 0 \/ pc s = AtReset).

(** The executor's calls along a schedule run from [s]: for every
    [executeMotorCommand(command)] statement the loop runs, the iteration
    it runs in and the value of the latch it passes. *)
Fixpoint executor_calls (s : System) (sched : list event) : list (nat * Z) :=
  match sched with
  | [] => []
  | e :: rest =>
      match e, pc s with
      | Advance _ _, AtExecute =>
          (iteration s, command (machine s)) :: executor_calls (step s e) rest
      | _, _ => executor_calls (step s e) rest
      end
  end.

(** The latch-writing bytes the bus delivers along a schedule run from
    [s], each with the loop iteration it arrives in. *)
Fixpoint delivered (s : System) (sched : list event) : list (nat * Z) :=
  match sched with
  | [] => []
  | e :: rest =>
      match e with
      | Interrupt rx _ _ =>
          if is_command_byte rx
          then (iteration s, wrap8 rx) :: delivered (step s e) rest
          else delivered (step s e) rest
      | Advance _ _ => delivered (step s e) rest
      end
  end.

(** How often the byte [b] occurs in such a list. *)
Definition occurrences (b : Z) (l : list (nat * Z)) : nat :=
  length (filter (fun x => snd x =? b) l).

(** The six motor outputs, the trigger left out. *)
Definition motor_outputs (p : Pins) : bool * bool * bool * bool * Z * Z :=
  (in1 p, in2 p, in3 p, in4 p, ena p, enb p).

(** Everything of the node except the latch and the SPI data register. *)
Definition latch_blind_view (s : System)
  : SensorData * Pins * Z * LoopPc * nat :=
  (sensorData (machine s), pins (machine s), SPCR (machine s), pc s,
   iteration s).

(** Case analysis following the [switch] of [executeMotorCommand]. *)
Ltac executor_cases c :=
  unfold executeMotorCommand;
  destruct (Z.eqb_spec c CMD_FORWARD); [subst c |];
  [| destruct (Z.eqb_spec c CMD_REVERSE); [subst c |]];
  [| | destruct (Z.eqb_spec c CMD_TURN_LEFT); [subst c |]];
  [| | | destruct (Z.eqb_spec c CMD_TURN_RIGHT); [subst c |]];
  [| | | | destruct (Z.eqb_spec c CMD_STOP); [subst c |]].

(** * Properties *)

(** ** Machine integers *)

Lemma wrap_signed_small (w z : Z) :
  0 < w -> - 2 ^ (w - 1) <= z < 2 ^ (w - 1) -> wrap_signed w z = z.
Proof.
  intros Hw Hz. unfold wrap_signed.
  assert (Hp : 2 ^ w = 2 * 2 ^ (w - 1)).
  { replace w with (Z.succ (w - 1)) at 1 by lia. apply Z.pow_succ_r. lia. }
  assert (Hpos : 0 < 2 ^ (w - 1)) by (apply Z.pow_pos_nonneg; lia).
  destruct (Z_lt_le_dec z 0) as [Hneg | Hnn].
  - assert (Hm : z mod 2 ^ w = z + 2 ^ w).
    { symmetry. apply (Z.mod_unique _ _ (-1)); lia. }
    rewrite Hm. destruct (Z.ltb_spec (z + 2 ^ w) (2 ^ (w - 1))); lia.
  - rewrite Z.mod_small by lia.
    destruct (Z.ltb_spec z (2 ^ (w - 1))); lia.
Qed.

Lemma wrap_long_small (z : Z) :
  -2147483648 <= z < 2147483648 -> wrap_long z = z.
Proof. intros H. apply wrap_signed_small; simpl; lia. Qed.

Lemma wrap_int_small (z : Z) : -32768 <= z < 32768 -> wrap_int z = z.
Proof. intros H. apply wrap_signed_small; simpl; lia. Qed.

Lemma wrap8_small (z : Z) : 0 <= z < 256 -> wrap8 z = z.
Proof. intros H. apply Z.mod_small; exact H. Qed.

Lemma wrap8_is_byte (z : Z) : is_byte (wrap8 z).
Proof. unfold is_byte, wrap8. apply Z.mod_pos_bound. lia. Qed.

Lemma wrap8_idem (z : Z) : wrap8 (wrap8 z) = wrap8 z.
Proof. apply wrap8_small, wrap8_is_byte. Qed.

(** ** Command executor *)

(** The executor either runs one of the five helpers or does nothing. *)
Lemma executeMotorCommand_cases (c : Z) (p : Pins) :
  executeMotorCommand c p = goForward p \/
  executeMotorCommand c p = goReverse p \/
  executeMotorCommand c p = turnLeft p \/
  executeMotorCommand c p = turnRight p \/
  executeMotorCommand c p = stopMotors p \/
  (valid_commandb c = false /\ executeMotorCommand c p = p).
Proof.
  executor_cases c; auto 6.
  do 5 right. split; [| reflexivity].
  unfold valid_commandb.
  repeat match goal with
         | H : c <> ?k |- _ => apply Z.eqb_neq in H; rewrite H; clear H
         end.
  reflexivity.
Qed.

(** A code with no [case] label leaves every output as it was. *)
Lemma unlisted_code_leaves_pins (c : Z) (p : Pins) :
  valid_commandb c = false -> executeMotorCommand c p = p.
Proof.
  unfold valid_commandb. intros H.
  repeat (apply orb_false_elim in H; destruct H as [H ?]).
  unfold executeMotorCommand.
  repeat match goal with
         | E : (c =? _) = false |- _ => rewrite E; clear E
         end.
  reflexivity.
Qed.

Lemma executor_keeps_duties_equal (c : Z) (p : Pins) :
  left_duty p = right_duty p ->
  left_duty (executeMotorCommand c p) = right_duty (executeMotorCommand c p).
Proof.
  intros H.
  destruct (executeMotorCommand_cases c p)
    as [E | [E | [E | [E | [E | [_ E]]]]]]; rewrite E;
    solve [reflexivity | exact H].
Qed.

(** C4, as worded: the turn duty is below the duty of both straight-line
    profiles.  It is not: turns run at 180, REVERSE at 150. *)
Lemma turn_duty_not_below_reverse : ~ turn_duty_below_straight stopped.
Proof.
  unfold turn_duty_below_straight. cbn. intros (_ & H & _). lia.
Qed.

(** C4, amended: from any prior pin state, TURN_LEFT and TURN_RIGHT drive
    the two sides in opposite directions (left reverse / right forward, and
    the converse) with the same duty 180 on both sides; that duty is below
    FORWARD's 200 and above REVERSE's 150; FORWARD and REVERSE differ. *)
Theorem turn_profiles (p : Pins) :
  (left_direction (turnLeft p) = Reverse /\
   right_direction (turnLeft p) = Forward /\
   left_direction (turnRight p) = Forward /\
   right_direction (turnRight p) = Reverse) /\
  (opposite (left_direction (turnLeft p)) (right_direction (turnLeft p)) = true /\
   opposite (left_direction (turnRight p)) (right_direction (turnRight p)) = true) /\
  (left_duty (turnLeft p) = 180 /\ right_duty (turnLeft p) = 180 /\
   left_duty (turnRight p) = 180 /\ right_duty (turnRight p) = 180) /\
  (left_duty (goForward p) = 200 /\ right_duty (goForward p) = 200 /\
   left_duty (goReverse p) = 150 /\ right_duty (goReverse p) = 150) /\
  (left_duty (turnLeft p) < left_duty (goForward p) /\
   left_duty (turnRight p) < left_duty (goForward p)) /\
  (left_duty (goReverse p) < left_duty (turnLeft p) /\
   left_duty (goReverse p) < left_duty (turnRight p)) /\
  left_duty (goForward p) <> left_duty (goReverse p) /\
  executeMotorCommand CMD_TURN_LEFT p = turnLeft p /\
  executeMotorCommand CMD_TURN_RIGHT p = turnRight p /\
  executeMotorCommand CMD_FORWARD p = goForward p /\
  executeMotorCommand CMD_REVERSE p = goReverse p.
Proof.
  cbn. repeat split; try reflexivity; lia.
Qed.

(** C5: for each of the five listed codes [c] and any prior pin state,
    [executeMotorCommand c] followed by [executeMotorCommand CMD_STOP]
    leaves both duties at 0 and all four direction lines low, that is both
    sides neutral. *)
Theorem stop_after_command (c : Z) (p : Pins) :
  valid_command c ->
  let p' := executeMotorCommand CMD_STOP (executeMotorCommand c p) in
  left_duty p' = 0 /\ right_duty p' = 0 /\
  in1 p' = LOW /\ in2 p' = LOW /\ in3 p' = LOW /\ in4 p' = LOW /\
  left_direction p' = Neutral /\ right_direction p' = Neutral /\
  trig p' = trig p.
Proof.
  intros [H | [H | [H | [H | H]]]]; subst c; cbn; repeat split; reflexivity.
Qed.

Lemma stop_after_command_witness :
  valid_command CMD_FORWARD /\
  left_duty (executeMotorCommand CMD_STOP
               (executeMotorCommand CMD_FORWARD stopped)) = 0.
Proof.
  assert (Hv : valid_command CMD_FORWARD) by (right; left; reflexivity).
  split; [exact Hv |].
  exact (proj1 (stop_after_command CMD_FORWARD stopped Hv)).
Defined.

(** C6 at the no-op value: the latch is reset to 0 and the executor's
    comment says that 0 does nothing, but 0 is [CMD_STOP], so the
    executor runs [stopMotors].  With the motors driving forward,
    [executeMotorCommand 0] zeroes both duties and all direction lines;
    and a FORWARD received over the bus is undone by the executor call of
    the following loop iteration although no byte arrived in between. *)
Theorem noop_value_stops_motors :
  executeMotorCommand 0 (goForward stopped) = stopped /\
  executeMotorCommand 0 (goForward stopped) <> goForward stopped /\
  pins (machine (run forward_schedule)) = goForward stopped /\
  last_command_byte forward_then_idle_schedule = Some CMD_FORWARD /\
  pins (machine (run forward_then_idle_schedule)) = stopped.
Proof.
  repeat split; try reflexivity.
  cbn. intros H. discriminate H.
Qed.

(** ** Sensor sampler *)

(** C7: with the calibration pair 600/850, [readBattery] yields 100 at a
    raw reading of 850, 0 at 600 and 50 (within 48..50) at 725.  For every
    raw reading of type [int] the result lies in 0..100; it is 0 at and
    below 600, 100 at and above 850, and in between it is the linear
    interpolation [100 * (adc - 600) / 250] with the fraction dropped. *)
Theorem readBattery_scale (adc : Z) :
  -32768 <= adc < 32768 ->
  (readBattery 850 = 100 /\ readBattery 600 = 0 /\
   48 <= readBattery 725 <= 50) /\
  0 <= readBattery adc <= 100 /\
  (adc <= 600 -> readBattery adc = 0) /\
  (850 <= adc -> readBattery adc = 100) /\
  (600 <= adc <= 850 ->
   250 * readBattery adc <= 100 * (adc - 600) < 250 * (readBattery adc + 1)).
Proof.
  intros Hadc.
  split; [repeat split; vm_compute; congruence |].
  unfold readBattery, map.
  rewrite (wrap_int_small adc) by lia.
  change (wrap_long (850 - 600)) with 250.
  change (wrap_long (100 - 0)) with 100.
  rewrite (wrap_long_small (adc - 600)) by lia.
  rewrite (wrap_long_small ((adc - 600) * 100)) by lia.
  rewrite Z.add_0_r.
  set (q := Z.quot ((adc - 600) * 100) 250).
  assert (Hq : (adc - 600) * 100 = 250 * q + Z.rem ((adc - 600) * 100) 250)
    by (apply Z.quot_rem'; lia).
  assert (Hr : Z.abs (Z.rem ((adc - 600) * 100) 250) < Z.abs 250)
    by (apply Z.rem_bound_abs; lia).
  assert (Hs : 0 <= (adc - 600) * 100 ->
               0 <= Z.rem ((adc - 600) * 100) 250)
    by (intros; apply Z.rem_nonneg; lia).
  assert (Hs' : (adc - 600) * 100 <= 0 ->
                Z.rem ((adc - 600) * 100) 250 <= 0)
    by (intros; apply Z.rem_nonpos; lia).
  assert (Hqb : -2147483648 <= q < 2147483648) by lia.
  rewrite (wrap_long_small q) by exact Hqb.
  unfold constrain.
  destruct (Z.ltb_spec q 0); [| destruct (Z.gtb_spec q 100)];
    try rewrite wrap8_small by lia; repeat split; intros; lia.
Qed.

Lemma readBattery_scale_witness :
  -32768 <= 725 < 32768 /\ 0 <= readBattery 725 <= 100.
Proof.
  assert (H : -32768 <= 725 < 32768) by lia.
  split; [exact H |].
  exact (proj1 (proj2 (readBattery_scale 725 H))).
Defined.

(** C8: when [pulseIn] times out and returns 0, [readUltrasonic] returns
    the distance 0.  There is no error path: the loop statement stores 0
    into the snapshot and goes on to the battery reading, and the whole
    iteration runs as usual, executing the latched command and resetting
    the latch. *)
Theorem no_echo_reads_zero (adc : Z) (m : Machine) :
  snd (readUltrasonic 0 (pins m)) = 0 /\
  fst (loop_statement 0 adc AtReadUltrasonic m) = AtReadBattery /\
  distance (sensorData (snd (loop_statement 0 adc AtReadUltrasonic m))) = 0 /\
  command (snd (loop_statement 0 adc AtReadUltrasonic m)) = command m /\
  sensorData (loop 0 adc m) = mkSensorData 0 (readBattery adc) /\
  pins (loop 0 adc m) =
    executeMotorCommand (command m) (fst (readUltrasonic 0 (pins m))) /\
  command (loop 0 adc m) = 0.
Proof.
  repeat split; reflexivity.
Qed.

(** ** Bus protocol handler *)

Lemma wait_SPIF_id (polls : nat) (m : Machine) : wait_SPIF polls m = m.
Proof. induction polls as [| k IH]; [reflexivity | exact IH]. Qed.

Lemma low_byte_mod (z : Z) : Z.land z 0xFF = z mod 256.
Proof. change 0xFF with (Z.ones 8). rewrite Z.land_ones by lia. reflexivity. Qed.

Lemma high_byte_div (z : Z) : Z.land (Z.shiftr z 8) 0xFF = (z / 256) mod 256.
Proof. rewrite low_byte_mod, Z.shiftr_div_pow2 by lia. reflexivity. Qed.

(** The handler on a telemetry request, with the bit operations read as
    arithmetic. *)
Lemma telemetry_bytes (polls1 polls2 : nat) (m : Machine) :
  SPDR m = CMD_GET_SENSOR_DATA ->
  ISR_SPI_STC polls1 polls2 m =
    (set_SPDR (wrap8 (battery_level (sensorData m))) m,
     [(distance (sensorData m) / 256) mod 256;
      distance (sensorData m) mod 256;
      wrap8 (battery_level (sensorData m))]).
Proof.
  intros H. unfold ISR_SPI_STC. rewrite H. cbn -[Z.land Z.shiftr wrap8 Z.div Z.modulo].
  rewrite !wait_SPIF_id. cbn -[Z.land Z.shiftr wrap8 Z.div Z.modulo].
  rewrite high_byte_div, low_byte_mod.
  rewrite (wrap8_small ((distance (sensorData m) / 256) mod 256))
    by (apply Z.mod_pos_bound; lia).
  rewrite (wrap8_small (distance (sensorData m) mod 256))
    by (apply Z.mod_pos_bound; lia).
  reflexivity.
Qed.

(** The handler on any other byte: latch it, acknowledge with 0xFF. *)
Lemma command_bytes (polls1 polls2 : nat) (m : Machine) :
  SPDR m <> CMD_GET_SENSOR_DATA ->
  ISR_SPI_STC polls1 polls2 m = (set_SPDR 0xFF (set_command (SPDR m) m), [0xFF]).
Proof.
  intros H. unfold ISR_SPI_STC.
  destruct (Z.eqb_spec (SPDR m) CMD_GET_SENSOR_DATA); [contradiction |].
  reflexivity.
Qed.

Lemma be_int16_bytes (d : Z) :
  is_short d -> be_int16 ((d / 256) mod 256) (d mod 256) = d.
Proof.
  unfold is_short, be_int16, wrap_short. intros Hd.
  assert (E : (d / 256) mod 256 * 256 + d mod 256 = d mod 65536).
  { change 65536 with (256 * 256). rewrite Z.rem_mul_r by lia. lia. }
  rewrite E. unfold wrap_signed. rewrite Z.mod_mod by (simpl; lia).
  change (2 ^ 16) with 65536. change (2 ^ (16 - 1)) with 32768.
  destruct (Z_lt_le_dec d 0) as [Hneg | Hnn].
  - assert (Hm : d mod 65536 = d + 65536)
      by (symmetry; apply (Z.mod_unique _ _ (-1)); lia).
    rewrite Hm. destruct (Z.ltb_spec (d + 65536) 32768); lia.
  - rewrite Z.mod_small by lia.
    destruct (Z.ltb_spec d 32768); lia.
Qed.

(** C2: whatever the snapshot holds (a [short] distance and a [byte]
    battery level), a bus exchange carrying TELEMETRY_REQUEST (0x10) stages
    exactly three response bytes [hi; lo; bat]: [hi] and [lo] are bytes
    whose big-endian signed 16-bit reading is the snapshot's distance, and
    [bat] is the snapshot's battery level.  The request is not latched and
    the snapshot is not changed. *)
Theorem telemetry_request_reply (polls1 polls2 : nat) (m : Machine) :
  is_short (distance (sensorData m)) ->
  is_byte (battery_level (sensorData m)) ->
  let r := bus_exchange CMD_GET_SENSOR_DATA polls1 polls2 m in
  length (snd r) = 3%nat /\
  (exists hi lo bat,
     snd r = [hi; lo; bat] /\
     is_byte hi /\ is_byte lo /\
     be_int16 hi lo = distance (sensorData m) /\
     bat = battery_level (sensorData m)) /\
  command (fst r) = command m /\
  sensorData (fst r) = sensorData m.
Proof.
  intros Hd Hb r. subst r. unfold bus_exchange.
  rewrite telemetry_bytes by reflexivity.
  cbn [fst snd sensorData set_SPDR command length].
  rewrite (wrap8_small _ Hb).
  split; [reflexivity |]. split; [| split; reflexivity].
  exists ((distance (sensorData m) / 256) mod 256),
         (distance (sensorData m) mod 256),
         (battery_level (sensorData m)).
  split; [reflexivity |].
  split; [apply Z.mod_pos_bound; lia |].
  split; [apply Z.mod_pos_bound; lia |].
  split; [apply be_int16_bytes; exact Hd | reflexivity].
Qed.

Lemma telemetry_request_reply_witness :
  snd (bus_exchange CMD_GET_SENSOR_DATA 2 5
         (set_distance (-300) (set_battery_level 87 (setup power_on))))
  = [254; 212; 87] /\
  be_int16 254 212 = -300 /\
  length (snd (bus_exchange CMD_GET_SENSOR_DATA 2 5
         (set_distance (-300) (set_battery_level 87 (setup power_on))))) = 3%nat.
Proof.
  split; [reflexivity |]. split; [reflexivity |].
  refine (proj1 (telemetry_request_reply 2 5
           (set_distance (-300) (set_battery_level 87 (setup power_on))) _ _)).
  - cbn. unfold is_short. lia.
  - cbn. unfold is_byte. lia.
Defined.

(** C9: in the state [setup] establishes, whatever the state before it, a
    TELEMETRY_REQUEST is answered with the three bytes 0x00, 0x00, 0x00,
    the snapshot having been initialised to distance 0 and battery level
    0; in particular so when the request is the first event after boot. *)
Theorem telemetry_before_first_iteration (polls1 polls2 : nat) (m0 : Machine) :
  sensorData (setup m0) = mkSensorData 0 0 /\
  snd (bus_exchange CMD_GET_SENSOR_DATA polls1 polls2 (setup m0))
    = [0x00; 0x00; 0x00] /\
  responses boot [Interrupt CMD_GET_SENSOR_DATA polls1 polls2]
    = [[0x00; 0x00; 0x00]].
Proof.
  split; [reflexivity |].
  assert (H : forall m,
             snd (bus_exchange CMD_GET_SENSOR_DATA polls1 polls2 (setup m))
             = [0; 0; 0]).
  { intros m. unfold bus_exchange. rewrite telemetry_bytes by reflexivity.
    reflexivity. }
  split; [apply H |].
  cbn [responses boot machine]. rewrite H. reflexivity.
Qed.

(** ** The interleaved system *)

(** Five uninterrupted statements are one call of [loop]. *)
Lemma five_statements_are_loop (echo adc : Z) (m : Machine) (n : nat) :
  run_from (mkSystem m AtReadUltrasonic n) (repeat (Advance echo adc) 5)
  = mkSystem (loop echo adc m) AtReadUltrasonic (S n).
Proof. reflexivity. Qed.

Lemma run_from_app (s : System) (l1 l2 : list event) :
  run_from s (l1 ++ l2) = run_from (run_from s l1) l2.
Proof. apply fold_left_app. Qed.

Lemma run_snoc (sched : list event) (e : event) :
  run (sched ++ [e]) = step (run sched) e.
Proof. unfold run. rewrite run_from_app. reflexivity. Qed.

(** What one bus exchange does to the shared state: the latch takes the
    byte unless it is the telemetry request; nothing else the loop reads
    or drives is touched. *)
Lemma bus_exchange_fields (rx : Z) (polls1 polls2 : nat) (m : Machine) :
  let m' := fst (bus_exchange rx polls1 polls2 m) in
  pins m' = pins m /\ sensorData m' = sensorData m /\ SPCR m' = SPCR m /\
  command m' = if is_command_byte rx then wrap8 rx else command m.
Proof.
  unfold bus_exchange, is_command_byte.
  destruct (Z.eqb_spec (wrap8 rx) CMD_GET_SENSOR_DATA) as [E | E].
  - rewrite telemetry_bytes by exact E. cbn. auto.
  - rewrite command_bytes by exact E. cbn. auto.
Qed.

Lemma interrupt_command (s : System) (rx : Z) (polls1 polls2 : nat) :
  command (machine (step s (Interrupt rx polls1 polls2)))
  = if is_command_byte rx then wrap8 rx else command (machine s).
Proof. cbn [step machine]. apply bus_exchange_fields. Qed.

Lemma interrupt_pc_iteration (s : System) (rx : Z) (polls1 polls2 : nat) :
  pc (step s (Interrupt rx polls1 polls2)) = pc s /\
  iteration (step s (Interrupt rx polls1 polls2)) = iteration s.
Proof. split; reflexivity. Qed.

(** The loop writes the latch in its reset statement only. *)
Lemma advance_command (s : System) (echo adc : Z) :
  command (machine (step s (Advance echo adc)))
  = match pc s with AtReset => 0 | _ => command (machine s) end.
Proof. destruct s as [m [] n]; reflexivity. Qed.

Lemma loop_statement_duties (echo adc : Z) (p : LoopPc) (m : Machine) :
  left_duty (pins m) = right_duty (pins m) ->
  left_duty (pins (snd (loop_statement echo adc p m)))
  = right_duty (pins (snd (loop_statement echo adc p m))).
Proof.
  intros H. destruct p; cbn [loop_statement snd]; try exact H.
  apply executor_keeps_duties_equal, H.
Qed.

Lemma wrap_short_is_short (z : Z) : is_short (wrap_short z).
Proof.
  unfold is_short, wrap_short, wrap_signed.
  change (2 ^ 16) with 65536. change (2 ^ (16 - 1)) with 32768.
  pose proof (Z.mod_pos_bound z 65536 eq_refl) as Hm.
  destruct (Z.ltb_spec (z mod 65536) 32768); lia.
Qed.

(** In every reachable state the snapshot holds a [short] and a [byte],
    so the telemetry reply is defined for it. *)
Lemma snapshot_in_range (sched : list event) :
  is_short (distance (sensorData (machine (run sched)))) /\
  is_byte (battery_level (sensorData (machine (run sched)))).
Proof.
  induction sched as [| e sched IH] using rev_ind.
  - cbn. unfold is_short, is_byte. lia.
  - rewrite run_snoc. destruct e as [rx polls1 polls2 | echo adc].
    + cbn [step machine].
      destruct (bus_exchange_fields rx polls1 polls2 (machine (run sched)))
        as (_ & Hs & _).
      rewrite Hs. exact IH.
    + destruct (run sched) as [m p n]. cbn [machine] in IH.
      destruct p; cbn [step loop_statement pc machine]; try exact IH.
      * cbn [readUltrasonic set_distance set_pins sensorData distance
               battery_level machine].
        split; [apply wrap_short_is_short | apply IH].
      * cbn [set_battery_level sensorData distance battery_level machine].
        split; [apply IH | apply wrap8_is_byte].
Qed.

(** C10: each helper of the profile table writes the same duty to both
    enable lines (FORWARD 200/200, REVERSE 150/150, TURN_LEFT 180/180,
    TURN_RIGHT 180/180, STOP 0/0) whatever the pins held before, and in
    every state the node reaches from boot, under any schedule of
    interrupts and loop statements, the two duties are equal. *)
Theorem duties_always_equal (sched : list event) (p : Pins) :
  (left_duty (executeMotorCommand CMD_FORWARD p) = 200 /\
   right_duty (executeMotorCommand CMD_FORWARD p) = 200) /\
  (left_duty (executeMotorCommand CMD_REVERSE p) = 150 /\
   right_duty (executeMotorCommand CMD_REVERSE p) = 150) /\
  (left_duty (executeMotorCommand CMD_TURN_LEFT p) = 180 /\
   right_duty (executeMotorCommand CMD_TURN_LEFT p) = 180) /\
  (left_duty (executeMotorCommand CMD_TURN_RIGHT p) = 180 /\
   right_duty (executeMotorCommand CMD_TURN_RIGHT p) = 180) /\
  (left_duty (executeMotorCommand CMD_STOP p) = 0 /\
   right_duty (executeMotorCommand CMD_STOP p) = 0) /\
  left_duty (pins (machine (run sched)))
  = right_duty (pins (machine (run sched))).
Proof.
  do 5 (split; [split; reflexivity |]).
  induction sched as [| e sched IH] using rev_ind; [reflexivity |].
  rewrite run_snoc. destruct e as [rx polls1 polls2 | echo adc].
  - cbn [step machine].
    destruct (bus_exchange_fields rx polls1 polls2 (machine (run sched)))
      as (Hp & _).
    rewrite Hp. exact IH.
  - cbn [step].
    pose proof (loop_statement_duties echo adc (pc (run sched)) _ IH) as H.
    destruct (loop_statement echo adc (pc (run sched)) (machine (run sched))).
    exact H.
Qed.

(** C3, as worded: the latch holds the no-op value or one of the five
    listed codes.  A byte outside the table, here 0x07, is latched too. *)
Lemma latch_holds_unlisted_byte :
  ~ latch_noop_or_valid (run unlisted_byte_schedule).
Proof.
  unfold latch_noop_or_valid, valid_command. cbn.
  intros [H | [H | [H | [H | [H | H]]]]]; discriminate H.
Qed.

Lemma last_command_byte_snoc (sched : list event) (e : event) :
  last_command_byte (sched ++ [e])
  = match e with
    | Interrupt rx _ _ =>
        if is_command_byte rx then Some (wrap8 rx) else last_command_byte sched
    | Advance _ _ => last_command_byte sched
    end.
Proof. unfold last_command_byte. rewrite fold_left_app. reflexivity. Qed.

(** C3, amended: after every schedule of interrupts and loop statements
    the latch is a byte other than TELEMETRY_REQUEST (0x10), and it is
    either 0, the value of the loop's reset, or the most recent byte other
    than 0x10 that the bus delivered, whether or not that byte is one of
    the five listed codes. *)
Theorem latch_is_reset_or_last_byte (sched : list event) :
  let c := command (machine (run sched)) in
  c <> CMD_GET_SENSOR_DATA /\
  is_byte c /\
  (c = 0 \/ last_command_byte sched = Some c).
Proof.
  induction sched as [| e sched IH] using rev_ind.
  - cbn. unfold is_byte. repeat split; try lia; auto. discriminate.
  - cbn zeta in *. rewrite run_snoc, last_command_byte_snoc.
    destruct IH as (Hne & Hb & Hlast).
    destruct e as [rx polls1 polls2 | echo adc].
    + rewrite interrupt_command. unfold is_command_byte in *.
      destruct (Z.eqb_spec (wrap8 rx) CMD_GET_SENSOR_DATA) as [E | E]; cbn [negb].
      * auto.
      * split; [exact E |]. split; [apply wrap8_is_byte | right; reflexivity].
    + rewrite advance_command. destruct (pc (run sched)); auto.
      unfold is_byte. repeat split; try lia; auto. discriminate.
Qed.

(** ** The ordering guarantee of the latch *)

Import Trace.

Lemma advance_pc_iteration (s : System) (echo adc : Z) :
  pc (step s (Advance echo adc))
  = match pc s with
    | AtReadUltrasonic => AtReadBattery
    | AtReadBattery => AtExecute
    | AtExecute => AtReset
    | AtReset => AtDelay
    | AtDelay => AtReadUltrasonic
    end /\
  iteration (step s (Advance echo adc))
  = match pc s with AtDelay => S (iteration s) | _ => iteration s end.
Proof. destruct s as [m [] n]; split; reflexivity. Qed.

(** C1 in the window between the executor call and the reset.  The loop
    has run [executeMotorCommand(command)] of iteration 0 and stands at
    [command = 0] when the bus delivers FORWARD.  The handler
    acknowledges with 0xFF and latches the byte; the reset, the next
    statement, sets the latch back to 0; by the end of iteration 1 the
    executor has been called twice, both times with 0, so FORWARD was
    never executed and the motors are still stopped. *)
Theorem forward_dropped_in_reset_window :
  let before := repeat (Advance 1000 725) 3 in
  let arrival := before ++ [Interrupt CMD_FORWARD 0 0] in
  pc (run before) = AtReset /\
  iteration (run before) = 0%nat /\
  responses boot arrival = [[0xFF]] /\
  command (machine (run arrival)) = CMD_FORWARD /\
  command (machine (run (arrival ++ [Advance 1000 725]))) = 0 /\
  iteration (run reset_window_schedule) = 2%nat /\
  delivered boot reset_window_schedule = [(0%nat, CMD_FORWARD)] /\
  executor_calls boot reset_window_schedule = [(0%nat, 0); (1%nat, 0)] /\
  pins (machine (run reset_window_schedule)) = stopped.
Proof.
  repeat split; vm_compute; reflexivity.
Qed.

(** * Further properties of the sketch *)

(** ** Sensor sampler *)

Lemma ultrasonic_agrees_sound (n : nat) :
  forall lo,
    ultrasonic_agrees lo n = true ->
    forall z, lo <= z < lo + Z.of_nat n ->
              snd (readUltrasonic z stopped) = exact_centimetres z.
Proof.
  induction n as [| k IH]; intros lo Hc z Hz.
  - cbn in Hz. lia.
  - cbn [ultrasonic_agrees] in Hc. apply andb_prop in Hc. destruct Hc as [H0 Hk].
    destruct (Z.eq_dec z lo) as [-> | Hne].
    + apply Z.eqb_eq. exact H0.
    + apply (IH (lo + 1) Hk). lia.
Qed.

Lemma ultrasonic_agrees_on_range :
  ultrasonic_agrees 0 (Z.to_nat 25001) = true.
Proof. vm_compute. reflexivity. Qed.

(** X1: over the whole range [pulseIn] can return with its 25 ms timeout,
    the binary32 computation of [readUltrasonic] returns exactly the
    integer part of [echo * 343 / 20000]; so the distance is between 0
    and 428 cm and never decreases when the echo time grows. *)
Theorem readUltrasonic_exact (echo echo' : Z) (p : Pins) :
  0 <= echo <= echo' -> echo' <= 25000 ->
  snd (readUltrasonic echo p) = exact_centimetres echo /\
  0 <= snd (readUltrasonic echo p) <= 428 /\
  snd (readUltrasonic echo p) <= snd (readUltrasonic echo' p).
Proof.
  intros He He'.
  assert (Hx : forall z q, 0 <= z <= 25000 ->
                           snd (readUltrasonic z q) = exact_centimetres z).
  { intros z q Hz.
    change (snd (readUltrasonic z q)) with (snd (readUltrasonic z stopped)).
    apply (ultrasonic_agrees_sound (Z.to_nat 25001) 0
             ultrasonic_agrees_on_range).
    rewrite Z2Nat.id; lia. }
  rewrite !Hx by lia. unfold exact_centimetres.
  split; [reflexivity |]. split.
  - split; [apply Z.div_pos; lia |].
    apply (Z.le_trans _ (25000 * 343 / 20000));
      [apply Z.div_le_mono; lia | vm_compute; discriminate].
  - apply Z.div_le_mono; lia.
Qed.

Lemma readUltrasonic_exact_witness :
  snd (readUltrasonic 1000 stopped) = exact_centimetres 1000 /\
  exact_centimetres 1000 = 17.
Proof.
  split; [| reflexivity].
  refine (proj1 (readUltrasonic_exact 1000 2000 stopped _ _)); lia.
Defined.

Lemma readBattery_formula (adc : Z) :
  -32768 <= adc < 32768 ->
  readBattery adc = constrain (Z.quot ((adc - 600) * 100) 250) 0 100.
Proof.
  intros Hadc. unfold readBattery, map.
  rewrite (wrap_int_small adc) by lia.
  change (wrap_long (850 - 600)) with 250.
  change (wrap_long (100 - 0)) with 100.
  rewrite (wrap_long_small (adc - 600)) by lia.
  rewrite (wrap_long_small ((adc - 600) * 100)) by lia.
  rewrite Z.add_0_r.
  pose proof (Z.quot_rem' ((adc - 600) * 100) 250) as Hq.
  pose proof (Z.rem_bound_abs ((adc - 600) * 100) 250) as Hr.
  rewrite wrap_long_small by lia.
  apply wrap8_small. unfold constrain.
  destruct (Z.ltb_spec (Z.quot ((adc - 600) * 100) 250) 0);
    [| destruct (Z.gtb_spec (Z.quot ((adc - 600) * 100) 250) 100)]; lia.
Qed.

(** X2: [readBattery] is monotone in the raw reading: over the whole range
    of [int], a higher analog reading never gives a lower percentage. *)
Theorem readBattery_monotone (adc adc' : Z) :
  -32768 <= adc -> adc <= adc' -> adc' < 32768 ->
  readBattery adc <= readBattery adc'.
Proof.
  intros Hlo Hle Hhi.
  rewrite !readBattery_formula by lia.
  assert (Hq : Z.quot ((adc - 600) * 100) 250 <= Z.quot ((adc' - 600) * 100) 250)
    by (apply Z.quot_le_mono; lia).
  unfold constrain.
  repeat match goal with
         | |- context [?a <? ?b] => destruct (Z.ltb_spec a b)
         | |- context [?a >? ?b] => destruct (Z.gtb_spec a b)
         end; lia.
Qed.

Lemma readBattery_monotone_witness : readBattery 640 <= readBattery 800.
Proof. apply readBattery_monotone; lia. Defined.

Lemma executor_keeps_trigger (c : Z) (p : Pins) :
  trig (executeMotorCommand c p) = trig p.
Proof.
  destruct (executeMotorCommand_cases c p)
    as [E | [E | [E | [E | [E | [_ E]]]]]]; rewrite E; reflexivity.
Qed.

(** X3: the sampler and the executor keep to their own pins.  Whatever
    the echo time, [readUltrasonic] leaves the four direction lines and
    both duties as they were and ends with the trigger low; whatever the
    code, [executeMotorCommand] leaves the trigger as it was. *)
Theorem sampler_and_executor_pins (echo c : Z) (p : Pins) :
  fst (readUltrasonic echo p)
  = mkPins (in1 p) (in2 p) (in3 p) (in4 p) (ena p) (enb p) LOW /\
  trig (executeMotorCommand c p) = trig p.
Proof.
  split; [reflexivity | apply executor_keeps_trigger].
Qed.

(** ** Command executor *)

(** X4: a listed command fixes the motor outputs by itself.  For each of
    the five listed codes the pins after [executeMotorCommand c] do not
    depend on which code, listed or not, was executed before; in
    particular executing the same listed code twice is the same as
    executing it once. *)
Theorem listed_command_overrides (c c' : Z) (p : Pins) :
  valid_command c ->
  executeMotorCommand c (executeMotorCommand c' p) = executeMotorCommand c p /\
  executeMotorCommand c (executeMotorCommand c p) = executeMotorCommand c p.
Proof.
  intros Hc.
  assert (H : forall q, trig q = trig p ->
                        executeMotorCommand c q = executeMotorCommand c p).
  { intros q Hq.
    destruct Hc as [H | [H | [H | [H | H]]]]; subst c; cbn; rewrite Hq;
      reflexivity. }
  split; apply H; apply executor_keeps_trigger.
Qed.

Lemma listed_command_overrides_witness :
  valid_command CMD_REVERSE /\
  executeMotorCommand CMD_REVERSE (executeMotorCommand CMD_TURN_LEFT stopped)
  = executeMotorCommand CMD_REVERSE stopped.
Proof.
  assert (Hv : valid_command CMD_REVERSE) by (right; right; left; reflexivity).
  split; [exact Hv |].
  exact (proj1 (listed_command_overrides CMD_REVERSE CMD_TURN_LEFT stopped Hv)).
Defined.

(** ** Start-up *)

Lemma SPCR_after_setup (m : Machine) : SPCR (setup m) = Z.lor (SPCR m) 0xC0.
Proof.
  cbn [setup SPCR set_SPCR set_pins set_distance set_battery_level].
  rewrite <- Z.lor_assoc. reflexivity.
Qed.

(** X5: [setup] from any state: both motors are stopped, the snapshot is
    zero, the latch is not written, and in the SPI control register
    exactly the bits SPE and SPIE are switched on, every other bit staying
    as it was.  Running [setup] a second time changes nothing. *)
Theorem setup_establishes (m : Machine) (i : Z) :
  pins (setup m) = mkPins LOW LOW LOW LOW 0 0 (trig (pins m)) /\
  sensorData (setup m) = mkSensorData 0 0 /\
  command (setup m) = command m /\
  Z.testbit (SPCR (setup m)) i
  = (Z.testbit (SPCR m) i || (i =? SPE) || (i =? SPIE))%bool /\
  setup (setup m) = setup m.
Proof.
  split; [reflexivity |]. split; [reflexivity |]. split; [reflexivity |].
  split.
  - cbn [setup SPCR set_SPCR set_pins set_distance set_battery_level].
    rewrite !Z.lor_spec.
    change (_BV SPE) with (2 ^ 6). change (_BV SPIE) with (2 ^ 7).
    rewrite !Z.pow2_bits_eqb by lia.
    unfold SPE, SPIE. rewrite (Z.eqb_sym 6 i), (Z.eqb_sym 7 i). reflexivity.
  - assert (E : SPCR (setup (setup m)) = SPCR (setup m)).
    { rewrite (SPCR_after_setup (setup m)), (SPCR_after_setup m).
      rewrite <- Z.lor_assoc. reflexivity. }
    destruct m as [c sd p d r].
    unfold setup at 1.
    cbn [set_pins set_SPCR set_distance set_battery_level
         command sensorData pins SPDR SPCR distance battery_level].
    change (Z.lor (Z.lor (SPCR (setup (mkMachine c sd p d r))) (_BV SPE)) (_BV SPIE))
      with (SPCR (setup (setup (mkMachine c sd p d r)))).
    rewrite E. reflexivity.
Qed.

(** ** Bus protocol handler *)

(** X6: the shape of a reply, in any state of the node.  A byte other than
    0x10 is answered by the single byte 0xFF and becomes the latch; the
    byte 0x10 is answered by three bytes and leaves the latch alone.
    Every staged byte, and the data register afterwards, is within
    0..255, even if the snapshot were not. *)
Theorem reply_shape (rx : Z) (polls1 polls2 : nat) (m : Machine) :
  let r := bus_exchange rx polls1 polls2 m in
  (if is_command_byte rx
   then snd r = [0xFF] /\ command (fst r) = wrap8 rx
   else length (snd r) = 3%nat /\ command (fst r) = command m) /\
  Forall is_byte (snd r) /\
  is_byte (SPDR (fst r)).
Proof.
  unfold bus_exchange, is_command_byte.
  destruct (Z.eqb_spec (wrap8 rx) CMD_GET_SENSOR_DATA) as [E | E]; cbn [negb].
  - rewrite telemetry_bytes by exact E. cbn [fst snd length].
    split; [split; reflexivity |]. split.
    + repeat constructor; try (apply Z.mod_pos_bound; lia); apply wrap8_is_byte.
    + apply wrap8_is_byte.
  - rewrite command_bytes by exact E. cbn [fst snd].
    split; [split; reflexivity |]. split.
    + repeat constructor; unfold is_byte; lia.
    + cbn. unfold is_byte. lia.
Qed.

(** X7: the latch is a single slot.  When a byte other than 0x10 is
    clocked in, the node is left in the same state whether or not another
    bus exchange, of either kind, came immediately before it: the earlier
    byte leaves no trace. *)
Theorem later_byte_replaces_earlier
        (s : System) (rx rx' : Z) (polls1 polls2 polls1' polls2' : nat) :
  is_command_byte rx' = true ->
  step (step s (Interrupt rx polls1 polls2)) (Interrupt rx' polls1' polls2')
  = step s (Interrupt rx' polls1' polls2').
Proof.
  intros Hrx'. unfold is_command_byte in Hrx'.
  apply negb_true_iff in Hrx'. apply Z.eqb_neq in Hrx'.
  destruct s as [m p n]. cbn [step machine pc iteration]. f_equal.
  destruct (bus_exchange_fields rx polls1 polls2 m) as (Hp & Hs & Hc & _).
  set (m1 := fst (bus_exchange rx polls1 polls2 m)) in *.
  unfold bus_exchange.
  rewrite !command_bytes by exact Hrx'.
  cbn [fst]. unfold set_SPDR, set_command.
  cbn [command sensorData pins SPDR SPCR].
  rewrite Hp, Hs, Hc. reflexivity.
Qed.

Lemma later_byte_replaces_earlier_witness :
  run [Interrupt CMD_FORWARD 0 0; Interrupt CMD_TURN_LEFT 0 0]
  = run [Interrupt CMD_TURN_LEFT 0 0].
Proof.
  apply (later_byte_replaces_earlier boot CMD_FORWARD CMD_TURN_LEFT 0 0 0 0).
  reflexivity.
Defined.

(** ** The handler and the loop together *)

(** X8: an unrecognised byte end to end.  A byte that is neither 0x10 nor
    one of the five listed codes is acknowledged with 0xFF like a command,
    and the loop iteration that consumes it leaves the four direction
    lines and both duties exactly as they were and resets the latch. *)
Theorem unlisted_byte_end_to_end
        (rx echo adc : Z) (polls1 polls2 : nat) (m : Machine) :
  is_command_byte rx = true ->
  valid_commandb (wrap8 rx) = false ->
  let r := bus_exchange rx polls1 polls2 m in
  let m' := loop echo adc (fst r) in
  snd r = [0xFF] /\
  pins m' = mkPins (in1 (pins m)) (in2 (pins m)) (in3 (pins m)) (in4 (pins m))
                   (ena (pins m)) (enb (pins m)) LOW /\
  command m' = 0.
Proof.
  intros Hrx Hun r m'. subst m' r.
  assert (Hne : wrap8 rx <> CMD_GET_SENSOR_DATA).
  { unfold is_command_byte in Hrx. apply negb_true_iff in Hrx.
    apply Z.eqb_neq. exact Hrx. }
  unfold bus_exchange. rewrite command_bytes by exact Hne.
  cbn [fst snd]. split; [reflexivity |]. split; [| reflexivity].
  change (pins (loop echo adc
                  (set_SPDR 255
                     (set_command (SPDR (set_SPDR (wrap8 rx) m))
                        (set_SPDR (wrap8 rx) m)))))
    with (executeMotorCommand (wrap8 rx) (fst (readUltrasonic echo (pins m)))).
  rewrite unlisted_code_leaves_pins by exact Hun. reflexivity.
Qed.

Lemma unlisted_byte_end_to_end_witness :
  pins (loop 1000 725
          (fst (bus_exchange 0x07 0 0
                  (set_pins (goForward stopped) (setup power_on)))))
  = goForward stopped.
Proof.
  refine (proj1 (proj2 (unlisted_byte_end_to_end 0x07 1000 725 0 0
            (set_pins (goForward stopped) (setup power_on)) _ _))); reflexivity.
Defined.

Lemma telemetry_keeps_loop_view (s : System) (rx : Z) (polls1 polls2 : nat) :
  is_command_byte rx = false ->
  loop_view (step s (Interrupt rx polls1 polls2)) = loop_view s.
Proof.
  intros Hrx. unfold loop_view. cbn [step machine pc iteration].
  destruct (bus_exchange_fields rx polls1 polls2 (machine s))
    as (Hp & Hs & Hc & Hl).
  rewrite Hrx in Hl. rewrite Hp, Hs, Hc, Hl. reflexivity.
Qed.

Lemma step_respects_loop_view (s1 s2 : System) (e : event) :
  loop_view s1 = loop_view s2 -> loop_view (step s1 e) = loop_view (step s2 e).
Proof.
  destruct s1 as [[c1 sd1 p1 d1 r1] pc1 n1], s2 as [[c2 sd2 p2 d2 r2] pc2 n2].
  unfold loop_view at 1 2. cbn [machine pc iteration command sensorData pins SPCR].
  intros H. inversion H; subst. clear H.
  destruct e as [rx polls1 polls2 | echo adc].
  - unfold loop_view. cbn [step machine pc iteration].
    destruct (bus_exchange_fields rx polls1 polls2 (mkMachine c2 sd2 p2 d1 r2))
      as (Hp & Hs & Hc & Hl).
    destruct (bus_exchange_fields rx polls1 polls2 (mkMachine c2 sd2 p2 d2 r2))
      as (Hp' & Hs' & Hc' & Hl').
    rewrite Hp, Hs, Hc, Hl, Hp', Hs', Hc', Hl'. reflexivity.
  - destruct pc2; reflexivity.
Qed.

(** X9: telemetry requests are invisible to the loop.  Removing every
    telemetry request from a schedule changes nothing but the SPI data
    register: the latch, the snapshot, all pins, the control register
    and the loop's position and iteration count come out the same. *)
Theorem telemetry_is_invisible (sched : list event) :
  loop_view (run (without_telemetry sched)) = loop_view (run sched).
Proof.
  unfold run.
  assert (H : forall s1 s2,
             loop_view s1 = loop_view s2 ->
             loop_view (run_from s1 (without_telemetry sched))
             = loop_view (run_from s2 sched)).
  { induction sched as [| e sched IH]; intros s1 s2 Hv; [exact Hv |].
    cbn [without_telemetry filter run_from fold_left].
    fold (without_telemetry sched). fold (run_from (step s2 e) sched).
    destruct e as [rx polls1 polls2 | echo adc].
    - destruct (is_command_byte rx) eqn:Hrx.
      + cbn [run_from fold_left].
        fold (run_from (step s1 (Interrupt rx polls1 polls2))
                       (without_telemetry sched)).
        apply IH, step_respects_loop_view, Hv.
      + apply IH. rewrite telemetry_keeps_loop_view by exact Hrx. exact Hv.
    - cbn [run_from fold_left].
      fold (run_from (step s1 (Advance echo adc)) (without_telemetry sched)).
      apply IH, step_respects_loop_view, Hv. }
  apply H. reflexivity.
Qed.

(** X10: what the loop leaves on the pins.  At every point between two
    statements of [loop], that is whenever neither a motor helper nor
    [readUltrasonic] is part-way through its pin writes, under any
    schedule from boot: the pins are exactly one of the five profiles
    with the trigger low, so no channel has both of its direction lines
    high, the duties are 0, 150, 180 or 200, and SPI with its interrupt
    is enabled (the control register is 0xC0).  Inside a helper the
    lines are written one at a time; those intermediate pin states are
    not states of [run]. *)
Theorem pins_are_always_a_profile (sched : list event) :
  In (pins (machine (run sched))) profiles /\
  left_direction (pins (machine (run sched))) <> Brake /\
  right_direction (pins (machine (run sched))) <> Brake /\
  In (left_duty (pins (machine (run sched)))) [0; 150; 180; 200] /\
  SPCR (machine (run sched)) = 0xC0.
Proof.
  assert (H : In (pins (machine (run sched))) profiles /\
              SPCR (machine (run sched)) = 0xC0).
  { induction sched as [| e sched IH] using rev_ind.
    - split; [left; reflexivity | reflexivity].
    - rewrite run_snoc. destruct IH as [IHp IHc].
      destruct e as [rx polls1 polls2 | echo adc].
      + cbn [step machine].
        destruct (bus_exchange_fields rx polls1 polls2 (machine (run sched)))
          as (Hp & _ & Hc & _).
        rewrite Hp, Hc. split; assumption.
      + destruct (run sched) as [[c sd p d r] l n].
        cbn [machine pins SPCR] in IHp, IHc.
        destruct l; cbn [step loop_statement machine pc iteration command
                         sensorData pins SPDR SPCR set_pins set_distance
                         set_battery_level set_command readUltrasonic];
          try (split; assumption).
        * split; [| exact IHc].
          unfold profiles in *. cbn [In] in IHp.
          destruct IHp as [E | [E | [E | [E | [E | []]]]]]; subst p;
            cbn; auto 6.
        * split; [| exact IHc].
          cbn [command].
          destruct (executeMotorCommand_cases c p)
            as [E | [E | [E | [E | [E | [_ E]]]]]]; rewrite E;
            try exact IHp;
            unfold profiles in *; cbn [In] in IHp;
            destruct IHp as [F | [F | [F | [F | [F | []]]]]]; subst p;
            cbn; auto 6. }
  destruct H as [Hp Hc]. split; [exact Hp |].
  unfold profiles in Hp. cbn [In] in Hp.
  destruct Hp as [E | [E | [E | [E | [E | []]]]]]; rewrite <- E; cbn;
    repeat split; try discriminate; auto 6; exact Hc.
Qed.

(** ** Without further commands the motors stop *)

Lemma at_rest_telemetry (s : System) (rx : Z) (polls1 polls2 : nat) :
  is_command_byte rx = false ->
  at_rest s -> at_rest (step s (Interrupt rx polls1 polls2)).
Proof.
  intros Hrx [Hp Hc]. unfold at_rest. cbn [step machine pc].
  destruct (bus_exchange_fields rx polls1 polls2 (machine s))
    as (Ep & _ & _ & El).
  rewrite Hrx in El. rewrite Ep, El. split; assumption.
Qed.

Lemma at_rest_advance (s : System) (echo adc : Z) :
  at_rest s -> at_rest (step s (Advance echo adc)).
Proof.
  destruct s as [[c sd [a1 a2 a3 a4 da db tr] d r] l n].
  unfold at_rest. cbn [machine pc pins command]. intros [Hp Hc].
  cbn in Hp. inversion Hp; subst. clear Hp.
  destruct l; cbn [step loop_statement machine pc iteration command
                   sensorData pins SPDR SPCR set_pins set_distance
                   set_battery_level set_command readUltrasonic].
  - destruct Hc as [Hc | Hc]; [| discriminate Hc].
    split; [reflexivity | left; exact Hc].
  - destruct Hc as [Hc | Hc]; [| discriminate Hc].
    split; [reflexivity | left; exact Hc].
  - destruct Hc as [Hc | Hc]; [subst c | discriminate Hc].
    split; [vm_compute; reflexivity | right; reflexivity].
  - split; [reflexivity | left; reflexivity].
  - destruct Hc as [Hc | Hc]; [| discriminate Hc].
    split; [reflexivity | left; exact Hc].
Qed.

Lemma advance_towards_rest (s : System) (echo adc : Z) :
  at_rest (step s (Advance echo adc)) \/
  (S (statements_until_stopped (step s (Advance echo adc)))
   <= statements_until_stopped s)%nat.
Proof.
  destruct s as [[c sd [a1 a2 a3 a4 da db tr] d r] l n].
  unfold statements_until_stopped, at_rest.
  destruct l; cbn [step loop_statement machine pc iteration command
                   sensorData pins SPDR SPCR set_pins set_distance
                   set_battery_level set_command readUltrasonic];
    try (right; destruct (c =? 0); cbn; lia).
  destruct (Z.eqb_spec c 0) as [-> | Hc].
  - left. split; [reflexivity | right; reflexivity].
  - right. lia.
Qed.

Lemma quiet_schedule_reaches_rest (sched : list event) :
  forall s,
    no_command_bytes sched ->
    at_rest s \/ (statements_until_stopped s <= advances sched)%nat ->
    at_rest (run_from s sched).
Proof.
  induction sched as [| e sched IH]; intros s Hq Hs.
  - destruct Hs as [Hs | Hs]; [exact Hs |].
    unfold statements_until_stopped in Hs. cbn in Hs.
    destruct (pc s), (command (machine s) =? 0); lia.
  - inversion Hq as [| e' l' He Hrest]; subst e' l'.
    cbn [run_from fold_left]. fold (run_from (step s e) sched).
    apply IH; [exact Hrest |].
    destruct e as [rx polls1 polls2 | echo adc].
    + destruct Hs as [Hs | Hs].
      * left. apply at_rest_telemetry; assumption.
      * right. unfold statements_until_stopped in *.
        cbn [step machine pc].
        destruct (bus_exchange_fields rx polls1 polls2 (machine s))
          as (_ & _ & _ & El).
        rewrite He in El. rewrite El. exact Hs.
    + destruct Hs as [Hs | Hs].
      * left. apply at_rest_advance, Hs.
      * destruct (advance_towards_rest s echo adc) as [H | H];
          [left; exact H | right].
        unfold advances in *. cbn in Hs. lia.
Qed.

(** X12: the motors run for at most two iterations per command.  From any
    state of the node whatsoever, once nine loop statements have run
    with no byte other than telemetry requests arriving, both duties are
    0 and all four direction lines are low: the reset value 0 of the
    latch is [CMD_STOP], so the executor call after the reset stops the
    motors. *)
Theorem motors_stop_without_commands (s : System) (sched : list event) :
  no_command_bytes sched ->
  (9 <= advances sched)%nat ->
  let p := pins (machine (run_from s sched)) in
  left_duty p = 0 /\ right_duty p = 0 /\
  in1 p = LOW /\ in2 p = LOW /\ in3 p = LOW /\ in4 p = LOW /\
  left_direction p = Neutral /\ right_direction p = Neutral.
Proof.
  intros Hq Hn p.
  assert (H : at_rest (run_from s sched)).
  { apply quiet_schedule_reaches_rest; [exact Hq | right].
    unfold statements_until_stopped.
    destruct (pc s), (command (machine s) =? 0); lia. }
  destruct H as [H _]. fold p in H.
  destruct p as [a1 a2 a3 a4 da db tr]. cbn in H. inversion H; subst.
  cbn. repeat split; reflexivity.
Qed.

Lemma motors_stop_without_commands_witness :
  left_duty (pins (machine (run (forward_schedule ++ one_iteration
                                   ++ repeat (Advance 1000 725) 4)))) = 0.
Proof.
  unfold run. rewrite run_from_app.
  refine (proj1 (motors_stop_without_commands (run_from boot forward_schedule)
                   (one_iteration ++ repeat (Advance 1000 725) 4) _ _)).
  - repeat constructor.
  - vm_compute. lia.
Defined.

(** ** The executor's calls and the bus deliveries *)

Lemma executor_calls_app (l1 l2 : list event) :
  forall s,
    executor_calls s (l1 ++ l2)
    = executor_calls s l1 ++ executor_calls (run_from s l1) l2.
Proof.
  induction l1 as [| e l1 IH]; intros s; [reflexivity |].
  cbn [app executor_calls run_from fold_left]. fold (run_from (step s e) l1).
  destruct e as [rx polls1 polls2 | echo adc]; [| destruct (pc s)];
    cbn [app]; rewrite IH; reflexivity.
Qed.

Lemma delivered_app (l1 l2 : list event) :
  forall s,
    delivered s (l1 ++ l2) = delivered s l1 ++ delivered (run_from s l1) l2.
Proof.
  induction l1 as [| e l1 IH]; intros s; [reflexivity |].
  cbn [app delivered run_from fold_left]. fold (run_from (step s e) l1).
  destruct e as [rx polls1 polls2 | echo adc];
    [destruct (is_command_byte rx) |]; cbn [app]; rewrite IH; reflexivity.
Qed.

Lemma occurrences_app (b : Z) (l1 l2 : list (nat * Z)) :
  occurrences b (l1 ++ l2) = (occurrences b l1 + occurrences b l2)%nat.
Proof. unfold occurrences. rewrite filter_app, length_app. reflexivity. Qed.

Lemma motor_outputs_executor (c : Z) (p q : Pins) :
  motor_outputs p = motor_outputs q ->
  motor_outputs (executeMotorCommand c p)
  = motor_outputs (executeMotorCommand c q).
Proof.
  intros H. executor_cases c; solve [exact H | vm_compute; reflexivity].
Qed.

Lemma motor_outputs_fold (cs : list Z) :
  forall p q,
    motor_outputs p = motor_outputs q ->
    motor_outputs (fold_left (fun r c => executeMotorCommand c r) cs p)
    = motor_outputs (fold_left (fun r c => executeMotorCommand c r) cs q).
Proof.
  induction cs as [| c cs IH]; intros p q H; [exact H |].
  cbn [fold_left]. apply IH, motor_outputs_executor, H.
Qed.

(** The motor outputs are what the logged executor calls make them. *)
Lemma motors_follow_calls (sched : list event) :
  forall s,
    motor_outputs (pins (machine (run_from s sched)))
    = motor_outputs
        (fold_left (fun r c => executeMotorCommand c r)
                   (List.map snd (executor_calls s sched))
                   (pins (machine s))).
Proof.
  induction sched as [| e sched IH]; intros s; [reflexivity |].
  cbn [run_from fold_left executor_calls]. fold (run_from (step s e) sched).
  rewrite IH.
  destruct e as [rx polls1 polls2 | echo adc].
  - cbn [step machine].
    destruct (bus_exchange_fields rx polls1 polls2 (machine s)) as (Hp & _).
    rewrite Hp. reflexivity.
  - destruct s as [[c sd p d r] l n].
    destruct l; cbn [step loop_statement machine pc iteration command
                     sensorData pins SPDR SPCR set_pins set_distance
                     set_battery_level set_command readUltrasonic
                     List.map snd fold_left];
      try reflexivity.
    apply motor_outputs_fold. reflexivity.
Qed.

(** The executor is called with a non-zero byte no more often than the
    bus delivered it; a byte the latch holds ahead of the executor call
    counts as a delivery not yet used. *)
Lemma calls_bounded_by_deliveries (b : Z) (sched : list event) :
  b <> 0 ->
  (occurrences b (executor_calls boot sched)
   + match pc (run sched) with
     | AtReset => 0
     | _ => if (command (machine (run sched)) =? b)%Z then 1 else 0
     end
   <= occurrences b (delivered boot sched))%nat.
Proof.
  intros Hb.
  assert (H0 : (0 =? b) = false) by (apply Z.eqb_neq; lia).
  induction sched as [| e sched IH] using rev_ind.
  - destruct b; cbn; [exfalso; apply Hb; reflexivity | lia | lia].
  - rewrite executor_calls_app, delivered_app, !occurrences_app, run_snoc.
    fold (run sched). set (s := run sched) in *.
    destruct e as [rx polls1 polls2 | echo adc].
    + rewrite interrupt_command.
      cbn [executor_calls delivered step pc].
      destruct (is_command_byte rx); unfold occurrences in *;
        cbn [filter snd length].
      * destruct (wrap8 rx =? b); cbn [length];
          destruct (pc s); destruct (command (machine s) =? b); lia.
      * destruct (pc s); destruct (command (machine s) =? b); lia.
    + rewrite advance_command.
      destruct (advance_pc_iteration s echo adc) as [Hpc _]. rewrite Hpc.
      cbn [executor_calls delivered]. unfold occurrences in *.
      destruct (pc s); cbn [filter snd length]; try rewrite H0;
        destruct (command (machine s) =? b); cbn [length]; lia.
Qed.

(** A non-zero byte passed to the executor was delivered in the same or
    in the previous iteration; so was a non-zero byte the latch holds. *)
Lemma calls_follow_deliveries (sched : list event) :
  (forall m c,
      In (m, c) (executor_calls boot sched) -> c <> 0 ->
      exists n, In (n, c) (delivered boot sched) /\ (n <= m <= n + 1)%nat) /\
  (command (machine (run sched)) <> 0 ->
   exists n,
     In (n, command (machine (run sched))) (delivered boot sched) /\
     (n <= iteration (run sched) <= n + 1)%nat /\
     (pc (run sched) = AtDelay -> iteration (run sched) = n)).
Proof.
  induction sched as [| e sched IH] using rev_ind.
  - split; [intros m c [] | intros H; exfalso; apply H; reflexivity].
  - destruct IH as [IHc IHl].
    rewrite executor_calls_app, delivered_app, run_snoc.
    fold (run sched). set (s := run sched) in *.
    destruct e as [rx polls1 polls2 | echo adc].
    + rewrite interrupt_command.
      cbn [executor_calls delivered step pc iteration]. rewrite app_nil_r.
      split.
      * intros m c Hin Hc. destruct (IHc m c Hin Hc) as (n & Hn & Hb).
        exists n. split; [apply in_or_app; left; exact Hn | exact Hb].
      * destruct (is_command_byte rx).
        -- intros _. exists (iteration s).
           split; [apply in_or_app; right; left; reflexivity |].
           split; [lia | reflexivity].
        -- rewrite app_nil_r. exact IHl.
    + rewrite advance_command.
      destruct (advance_pc_iteration s echo adc) as [Hpc Hit].
      rewrite Hpc, Hit. cbn [executor_calls delivered]. rewrite app_nil_r.
      destruct (pc s) eqn:Epc; try rewrite app_nil_r;
        (split; [| try (intros Hne; destruct (IHl Hne) as (n & Hn & Hb & Hd);
                        exists n; split; [exact Hn |];
                        split; [try specialize (Hd eq_refl); lia
                               | intros Hx; discriminate Hx])]);
        try exact IHc.
      * intros m c Hin Hc. apply in_app_or in Hin.
        destruct Hin as [Hin | [Hin | []]]; [exact (IHc m c Hin Hc) |].
        inversion Hin; subst m c.
        destruct (IHl Hc) as (n & Hn & Hb & _). exists n. split; assumption.
      * intros Hne. exfalso. apply Hne. reflexivity.
Qed.

(** X15: every command is executed at most once, and soon.  Under any
    schedule from boot: the motor outputs are exactly what the executor's
    calls, in order, make of the pins at boot; for a non-zero byte [b]
    the executor is called with [b] no more often than the bus delivered
    [b]; and every executor call with a non-zero byte [c] in iteration
    [m] comes after a delivery of [c] in iteration [m] or [m - 1]. *)
Theorem executor_calls_match_deliveries (sched : list event) (b : Z) :
  motor_outputs (pins (machine (run sched)))
  = motor_outputs
      (fold_left (fun r c => executeMotorCommand c r)
                 (List.map snd (executor_calls boot sched))
                 (pins (machine boot))) /\
  (b <> 0 ->
   (occurrences b (executor_calls boot sched)
    <= occurrences b (delivered boot sched))%nat) /\
  (forall m c,
      In (m, c) (executor_calls boot sched) -> c <> 0 ->
      exists n, In (n, c) (delivered boot sched) /\ (n <= m <= n + 1)%nat).
Proof.
  split; [apply motors_follow_calls |]. split.
  - intros Hb. pose proof (calls_bounded_by_deliveries b sched Hb). lia.
  - apply calls_follow_deliveries.
Qed.

Lemma executor_calls_match_deliveries_witness :
  CMD_TURN_LEFT <> 0 /\
  (occurrences CMD_TURN_LEFT
     (executor_calls boot (delay_window_schedule ++ one_iteration))
   <= 1)%nat.
Proof.
  assert (Hb : CMD_TURN_LEFT <> 0) by discriminate.
  split; [exact Hb |].
  exact (proj1 (proj2 (executor_calls_match_deliveries
                         (delay_window_schedule ++ one_iteration)
                         CMD_TURN_LEFT)) Hb).
Defined.




(** ** Bytes that leave no trace *)

Lemma runs_agree_on_view (l : list event) :
  forall s1 s2,
    loop_view s1 = loop_view s2 ->
    loop_view (run_from s1 l) = loop_view (run_from s2 l) /\
    executor_calls s1 l = executor_calls s2 l.
Proof.
  induction l as [| e l IH]; intros s1 s2 Hv; [split; [exact Hv | reflexivity] |].
  cbn [run_from fold_left executor_calls].
  fold (run_from (step s1 e) l). fold (run_from (step s2 e) l).
  destruct (IH _ _ (step_respects_loop_view s1 s2 e Hv)) as [IHv IHc].
  split; [exact IHv |].
  unfold loop_view in Hv. inversion Hv as [[Hc Hs Hp Hr Hpc Hit]].
  rewrite IHc. reflexivity.
Qed.

Lemma interrupt_latch_blind (s : System) (rx : Z) (polls1 polls2 : nat) :
  latch_blind_view (step s (Interrupt rx polls1 polls2)) = latch_blind_view s.
Proof.
  unfold latch_blind_view. cbn [step machine pc iteration].
  destruct (bus_exchange_fields rx polls1 polls2 (machine s))
    as (Hp & Hs & Hc & _).
  rewrite Hp, Hs, Hc. reflexivity.
Qed.

(** Two nodes that differ in the latch only stay so until the executor is
    called. *)
Lemma step_latch_blind (s1 s2 : System) (e : event) :
  latch_blind_view s1 = latch_blind_view s2 ->
  match e with Advance _ _ => pc s2 <> AtExecute | Interrupt _ _ _ => True end ->
  latch_blind_view (step s1 e) = latch_blind_view (step s2 e).
Proof.
  intros Hv He. destruct e as [rx polls1 polls2 | echo adc].
  - rewrite !interrupt_latch_blind. exact Hv.
  - destruct s1 as [[c1 sd1 p1 d1 r1] pc1 n1], s2 as [[c2 sd2 p2 d2 r2] pc2 n2].
    unfold latch_blind_view in Hv.
    cbn [machine pc iteration sensorData pins SPCR] in Hv, He.
    inversion Hv; subst. clear Hv.
    destruct pc2; try reflexivity. contradiction He. reflexivity.
Qed.

(** A write to the latch makes them equal again. *)
Lemma latch_write_closes_gap (s1 s2 : System) (e : event) :
  latch_blind_view s1 = latch_blind_view s2 ->
  match e with
  | Advance _ _ => pc s2 = AtReset
  | Interrupt rx _ _ => is_command_byte rx = true
  end ->
  loop_view (step s1 e) = loop_view (step s2 e).
Proof.
  intros Hv He. destruct e as [rx polls1 polls2 | echo adc].
  - pose proof (step_latch_blind s1 s2 (Interrupt rx polls1 polls2) Hv I) as Hb.
    unfold latch_blind_view in Hb. inversion Hb as [[Hs Hp Hr Hpc Hit]].
    unfold loop_view. cbn [step machine pc iteration].
    rewrite Hs, Hp, Hr, Hpc, Hit.
    destruct (bus_exchange_fields rx polls1 polls2 (machine s1))
      as (_ & _ & _ & Hc1).
    destruct (bus_exchange_fields rx polls1 polls2 (machine s2))
      as (_ & _ & _ & Hc2).
    rewrite Hc1, Hc2, He. reflexivity.
  - destruct s1 as [[c1 sd1 p1 d1 r1] pc1 n1], s2 as [[c2 sd2 p2 d2 r2] pc2 n2].
    unfold latch_blind_view in Hv.
    cbn [machine pc iteration sensorData pins SPCR] in Hv, He.
    inversion Hv; subst. reflexivity.
Qed.

Lemma reset_closes_gap (post : list event) :
  forall s1 s2,
    latch_blind_view s1 = latch_blind_view s2 ->
    pc s2 = AtReset ->
    (1 <= advances post)%nat ->
    loop_view (run_from s1 post) = loop_view (run_from s2 post) /\
    executor_calls s1 post = executor_calls s2 post.
Proof.
  induction post as [| e post IH]; intros s1 s2 Hv Hpc Hlen.
  - cbn in Hlen. lia.
  - assert (Hpc1 : pc s1 = AtReset).
    { unfold latch_blind_view in Hv. inversion Hv as [[Hs Hp Hr Hq Hit]].
      rewrite Hq. exact Hpc. }
    cbn [run_from fold_left executor_calls].
    fold (run_from (step s1 e) post). fold (run_from (step s2 e) post).
    destruct e as [rx polls1 polls2 | echo adc].
    + apply IH; [apply step_latch_blind; [exact Hv | exact I] | exact Hpc |].
      exact Hlen.
    + rewrite Hpc, Hpc1.
      apply runs_agree_on_view.
      apply latch_write_closes_gap; [exact Hv | exact Hpc].
Qed.

Lemma no_call_keeps_gap (mid : list event) :
  forall s1 s2,
    latch_blind_view s1 = latch_blind_view s2 ->
    executor_calls s2 mid = [] ->
    latch_blind_view (run_from s1 mid) = latch_blind_view (run_from s2 mid) /\
    executor_calls s1 mid = [].
Proof.
  induction mid as [| e mid IH]; intros s1 s2 Hv Hn;
    [split; [exact Hv | reflexivity] |].
  assert (Hpc1 : pc s1 = pc s2)
    by exact (f_equal (fun v => snd (fst v)) Hv).
  cbn [run_from fold_left executor_calls] in *.
  fold (run_from (step s1 e) mid). fold (run_from (step s2 e) mid).
  rewrite Hpc1.
  destruct e as [rx polls1 polls2 | echo adc].
  - apply IH; [apply step_latch_blind; [exact Hv | exact I] | exact Hn].
  - destruct (pc s2) eqn:Epc; try discriminate Hn;
      (apply IH; [apply step_latch_blind; [exact Hv | rewrite Epc; discriminate]
                 | exact Hn]).
Qed.

(** X13: a byte that arrives between the executor call and the reset is
    dropped.  From any state in which the loop stands at [command = 0],
    a byte other than 0x10 is acknowledged with 0xFF and written to the
    latch; but once the loop has run its next statement the node, and
    every executor call from then on, are exactly as if the byte had
    never been sent, whatever else the schedule contains (only the SPI
    data register may differ). *)
Theorem byte_before_reset_leaves_no_trace
        (s : System) (rx : Z) (polls1 polls2 : nat) (post : list event) :
  is_command_byte rx = true ->
  pc s = AtReset ->
  (1 <= advances post)%nat ->
  snd (bus_exchange rx polls1 polls2 (machine s)) = [0xFF] /\
  command (machine (step s (Interrupt rx polls1 polls2))) = wrap8 rx /\
  loop_view (run_from s (Interrupt rx polls1 polls2 :: post))
  = loop_view (run_from s post) /\
  executor_calls s (Interrupt rx polls1 polls2 :: post)
  = executor_calls s post.
Proof.
  intros Hrx Hpc Hlen.
  assert (Hne : wrap8 rx <> CMD_GET_SENSOR_DATA).
  { unfold is_command_byte in Hrx. apply negb_true_iff in Hrx.
    apply Z.eqb_neq. exact Hrx. }
  split; [unfold bus_exchange; rewrite command_bytes by exact Hne; reflexivity |].
  split; [rewrite interrupt_command, Hrx; reflexivity |].
  cbn [run_from fold_left executor_calls].
  fold (run_from (step s (Interrupt rx polls1 polls2)) post).
  fold (run_from s post).
  apply reset_closes_gap; [apply interrupt_latch_blind | exact Hpc | exact Hlen].
Qed.

Lemma byte_before_reset_leaves_no_trace_witness :
  pc (run (repeat (Advance 1000 725) 3)) = AtReset /\
  executor_calls (run (repeat (Advance 1000 725) 3))
    (Interrupt CMD_FORWARD 0 0 :: repeat (Advance 1000 725) 2 ++ one_iteration)
  = executor_calls (run (repeat (Advance 1000 725) 3))
      (repeat (Advance 1000 725) 2 ++ one_iteration).
Proof.
  split; [reflexivity |].
  refine (proj2 (proj2 (proj2 (byte_before_reset_leaves_no_trace
            (run (repeat (Advance 1000 725) 3)) CMD_FORWARD 0 0
            (repeat (Advance 1000 725) 2 ++ one_iteration) _ _ _)))).
  - reflexivity.
  - reflexivity.
  - vm_compute. lia.
Defined.

(** X14: last write wins.  From any state, a byte other than 0x10 is
    acknowledged with 0xFF and written to the latch; but if another byte
    other than 0x10 arrives before the executor is called (loop
    statements other than the executor call, and telemetry requests, may
    come in between), then from the second byte on the node, and every
    executor call, are exactly as if the first byte had never been sent
    (only the SPI data register may differ). *)
Theorem overwritten_byte_leaves_no_trace
        (s : System) (rx rx' : Z) (polls1 polls2 polls1' polls2' : nat)
        (mid post : list event) :
  is_command_byte rx = true ->
  is_command_byte rx' = true ->
  executor_calls s mid = [] ->
  snd (bus_exchange rx polls1 polls2 (machine s)) = [0xFF] /\
  command (machine (step s (Interrupt rx polls1 polls2))) = wrap8 rx /\
  loop_view (run_from s (Interrupt rx polls1 polls2
                           :: mid ++ Interrupt rx' polls1' polls2' :: post))
  = loop_view (run_from s (mid ++ Interrupt rx' polls1' polls2' :: post)) /\
  executor_calls s (Interrupt rx polls1 polls2
                      :: mid ++ Interrupt rx' polls1' polls2' :: post)
  = executor_calls s (mid ++ Interrupt rx' polls1' polls2' :: post).
Proof.
  intros Hrx Hrx' Hmid.
  assert (Hne : wrap8 rx <> CMD_GET_SENSOR_DATA).
  { unfold is_command_byte in Hrx. apply negb_true_iff in Hrx.
    apply Z.eqb_neq. exact Hrx. }
  split; [unfold bus_exchange; rewrite command_bytes by exact Hne; reflexivity |].
  split; [rewrite interrupt_command, Hrx; reflexivity |].
  set (s1 := step s (Interrupt rx polls1 polls2)).
  destruct (no_call_keeps_gap mid s1 s (interrupt_latch_blind s rx polls1 polls2) Hmid)
    as [Hv Hc1].
  change (run_from s (Interrupt rx polls1 polls2
                        :: mid ++ Interrupt rx' polls1' polls2' :: post))
    with (run_from s1 (mid ++ Interrupt rx' polls1' polls2' :: post)).
  change (executor_calls s (Interrupt rx polls1 polls2
                        :: mid ++ Interrupt rx' polls1' polls2' :: post))
    with (executor_calls s1 (mid ++ Interrupt rx' polls1' polls2' :: post)).
  rewrite !run_from_app, !executor_calls_app, Hc1, Hmid.
  cbn [app run_from fold_left executor_calls].
  fold (run_from (step (run_from s1 mid) (Interrupt rx' polls1' polls2')) post).
  fold (run_from (step (run_from s mid) (Interrupt rx' polls1' polls2')) post).
  apply runs_agree_on_view.
  apply latch_write_closes_gap; [exact Hv | exact Hrx'].
Qed.

Lemma overwritten_byte_leaves_no_trace_witness :
  executor_calls boot
    (Interrupt CMD_FORWARD 0 0
       :: repeat (Advance 1000 725) 2
       ++ Interrupt CMD_TURN_LEFT 0 0 :: one_iteration)
  = [(0%nat, CMD_TURN_LEFT)].
Proof.
  transitivity (executor_calls boot
                  (repeat (Advance 1000 725) 2
                     ++ Interrupt CMD_TURN_LEFT 0 0 :: one_iteration));
    [| reflexivity].
  refine (proj2 (proj2 (proj2 (overwritten_byte_leaves_no_trace
            boot CMD_FORWARD CMD_TURN_LEFT 0 0 0 0
            (repeat (Advance 1000 725) 2) one_iteration _ _ _))));
    reflexivity.
Defined.
